(** * gesedels: a key-value API in Go, embedded in Rocq

    Shallow embedding of [gesedels.go]: the string sanitisation functions
    ([IsPrivate], [PairKey], [PairValue]), the database handling functions
    ([DeletePair], [GetPair], [SetPair]) over a model of the bbolt store,
    and the HTTP response functions ([WriteHTTP], [WriteError],
    [WriteFailure]) over a model of [fmt] formatting and of a recording
    [http.ResponseWriter]. *)

From stdpp Require Import base gmap strings list.
From Stdlib Require Import Ascii ZArith Lia.

Open Scope stdpp_scope.

(** Let [simpl] compute [String.append] on constructors. *)
#[local] Arguments String.append : simpl nomatch.

(** ** Part two: string sanitisation functions *)

Module Strs.

(** Go's [asciiSpace] table: the bytes trimmed by [strings.TrimSpace] on its
    ASCII path (tab, newline, vertical tab, form feed, carriage return,
    space). *)
Definition asciiSpace (c : ascii) : bool :=
  let n := nat_of_ascii c in
  (Nat.eqb n 9 || Nat.eqb n 10 || Nat.eqb n 11 || Nat.eqb n 12 ||
   Nat.eqb n 13 || Nat.eqb n 32)%bool.

(** [strings.TrimSpace], ASCII path: drop leading and then trailing bytes of
    [asciiSpace]. Strings are Go byte strings read as ASCII text; the Unicode
    fallback Go takes on bytes >= 0x80 (trimming Unicode white space such as
    U+00A0) is outside this model, which treats such bytes as non-space. *)
Fixpoint trim_left (s : string) : string :=
  match s with
  | EmptyString => EmptyString
  | String c s' => if asciiSpace c then trim_left s' else s
  end.

(** The trailing scan of [TrimSpace]: the longest prefix whose last byte is
    not an [asciiSpace] (Go moves [stop] down over trailing space bytes). *)
Fixpoint trim_right (s : string) : string :=
  match s with
  | EmptyString => EmptyString
  | String c s' =>
      match trim_right s' with
      | EmptyString => if asciiSpace c then EmptyString else String c EmptyString
      | r => String c r
      end
  end.

Definition TrimSpace (s : string) : string := trim_right (trim_left s).

(** [unicode.ToLower] on an ASCII byte: 'A'..'Z' to 'a'..'z'. *)
Definition lower_byte (c : ascii) : ascii :=
  let n := nat_of_ascii c in
  if (Nat.leb 65 n && Nat.leb n 90)%bool then ascii_of_nat (n + 32) else c.

(** [strings.ToLower], ASCII path (the string is all ASCII): each byte
    lowered. As for [TrimSpace], Go's Unicode path ([strings.Map]) for
    strings with bytes >= 0x80 is outside this model. *)
Fixpoint ToLower (s : string) : string :=
  match s with
  | EmptyString => EmptyString
  | String c s' => String (lower_byte c) (ToLower s')
  end.

(** The Go string ["\n"]. *)
Definition newline : string := String (ascii_of_nat 10) EmptyString.

(** [strings.HasPrefix]: [len(s) >= len(prefix) && s[:len(prefix)] == prefix]. *)
Definition HasPrefix (s prefix : string) : bool :=
  (Nat.leb (String.length prefix) (String.length s) &&
   String.eqb (String.substring 0 (String.length prefix) s) prefix)%bool.

(** [strings.HasSuffix]:
    [len(s) >= len(suffix) && s[len(s)-len(suffix):] == suffix]. *)
Definition HasSuffix (s suffix : string) : bool :=
  (Nat.leb (String.length suffix) (String.length s) &&
   String.eqb (String.substring (String.length s - String.length suffix)
                 (String.length suffix) s) suffix)%bool.

End Strs.

Import Strs.

(** [IsPrivate] returns true if a name string is surrounded with two
    leading underscores (gesedels.go, lines 29-31). *)
Definition IsPrivate (name : string) : bool :=
  (HasPrefix name "__" && HasSuffix name "__")%bool.

(** [PairKey] returns a lowercase pair key from user and name strings
    (lines 34-38); the Go [[]byte] is modelled by the string of its bytes. *)
Definition PairKey (user name : string) : string :=
  let user := ToLower user in
  let name := ToLower name in
  user +:+ ":" +:+ name.

(** [PairValue] returns a whitespace-trimmed pair value (lines 41-43). *)
Definition PairValue (text : string) : string :=
  TrimSpace text +:+ newline.

(** ** The bbolt store (external collaborator)

    Only what the pair functions touch: a database handle with its open and
    read-only flags, a pending I/O failure that makes the next commit fail,
    and the root bucket ["main"], absent until created. A bucket maps byte
    keys to values or to nested buckets, as bbolt buckets do. *)

Module Bolt.

Inductive Err :=
  | ErrDatabaseNotOpen
  | ErrDatabaseReadOnly
  | ErrTxNotWritable
  | ErrKeyRequired
  | ErrKeyTooLarge
  | ErrValueTooLarge
  | ErrIncompatibleValue
  | ErrIO.

Inductive Entry :=
  | Value (v : string)
  | Nested.

Abbreviation Bucket := (gmap string Entry).

Record DB := mkDB {
  db_opened : bool;
  db_readOnly : bool;
  db_fault : option Err;
  db_main : option Bucket
}.

Record Tx := mkTx {
  tx_writable : bool;
  tx_main : option Bucket
}.

Definition MaxKeySize : N := 32768.
Definition MaxValueSize : N := 2147483646.

Definition len (s : string) : N := N.of_nat (String.length s).

Definition with_main (tx : Tx) (b : Bucket) : Tx := mkTx (tx_writable tx) (Some b).

(** [tx.Bucket([]byte("main"))]: nil when the bucket does not exist. *)
Definition tx_Bucket (tx : Tx) : option Bucket := tx_main tx.

(** [tx.CreateBucketIfNotExists([]byte("main"))]. *)
Definition CreateBucketIfNotExists (tx : Tx) : Tx * (Bucket + Err) :=
  if negb (tx_writable tx) then (tx, inr ErrTxNotWritable)
  else match tx_main tx with
       | Some b => (tx, inl b)
       | None => (with_main tx ∅, inl ∅)
       end.

(** [Bucket.Get]: nil when the key is absent or holds a nested bucket. *)
Definition bucket_Get (b : Bucket) (key : string) : option string :=
  match b !! key with
  | Some (Value v) => Some v
  | _ => None
  end.

(** [Bucket.Put] with its checks, in bbolt's order. *)
Definition bucket_Put (writable : bool) (b : Bucket) (key value : string)
  : Bucket * option Err :=
  if negb writable then (b, Some ErrTxNotWritable)
  else if N.eqb (len key) 0 then (b, Some ErrKeyRequired)
  else if N.ltb MaxKeySize (len key) then (b, Some ErrKeyTooLarge)
  else if N.ltb MaxValueSize (len value) then (b, Some ErrValueTooLarge)
  else match b !! key with
       | Some Nested => (b, Some ErrIncompatibleValue)
       | _ => (<[key := Value value]> b, None)
       end.

(** [Bucket.Delete]: deleting an absent key is not an error. *)
Definition bucket_Delete (writable : bool) (b : Bucket) (key : string)
  : Bucket * option Err :=
  if negb writable then (b, Some ErrTxNotWritable)
  else match b !! key with
       | None => (b, None)
       | Some Nested => (b, Some ErrIncompatibleValue)
       | Some (Value _) => (delete key b, None)
       end.

(** [db.Update(fn)]: a read-write transaction; committed when [fn] returns
    nil and the commit's write succeeds, rolled back otherwise. *)
Definition Update (db : DB) (fn : Tx -> Tx * option Err) : DB * option Err :=
  if db_readOnly db then (db, Some ErrDatabaseReadOnly)
  else if negb (db_opened db) then (db, Some ErrDatabaseNotOpen)
  else
    let '(tx, err) := fn (mkTx true (db_main db)) in
    match err with
    | Some e => (db, Some e)
    | None =>
        match db_fault db with
        | Some e => (db, Some e)
        | None => (mkDB (db_opened db) (db_readOnly db) None (tx_main tx), None)
        end
    end.

(** [db.View(fn)]: a read-only transaction, always rolled back. The
    closure's captured local variables are threaded explicitly ([A]). *)
Definition View {A} (db : DB) (locals : A) (fn : Tx -> A -> Tx * A * option Err)
  : DB * (A * option Err) :=
  if negb (db_opened db) then (db, (locals, Some ErrDatabaseNotOpen))
  else
    let '(_, locals', err) := fn (mkTx false (db_main db)) locals in
    (db, (locals', err)).

End Bolt.

Import Bolt.

(** ** Part three: database handling functions *)

(** [DeletePair] deletes an existing pair from a database (lines 50-58). *)
Definition DeletePair (db : DB) (user name : string) : DB * option Err :=
  Update db (fun tx =>
    match tx_Bucket tx with
    | Some buck =>
        let '(buck', err) := bucket_Delete (tx_writable tx) buck (PairKey user name) in
        (with_main tx buck', err)
    | None => (tx, None)
    end).

(** [GetPair] returns the value of an existing pair and whether it exists
    (lines 62-75). The closure assigns the captured [pval] and [okay];
    [return pval, okay, db.View(...)] reads them after the call, the order
    of the gc compiler (which the repository's tests rely on). *)
Definition GetPair (db : DB) (user name : string)
  : DB * (string * bool * option Err) :=
  let pval := "" in
  let okay := false in
  let '(db', ((pval, okay), err)) :=
    View db (pval, okay) (fun tx locals =>
      match tx_Bucket tx with
      | Some buck =>
          let bytes := bucket_Get buck (PairKey user name) in
          (tx, (default "" bytes, bool_decide (is_Some bytes)), None)
      | None => (tx, locals, None)
      end) in
  (db', (pval, okay, err)).

(** [SetPair] sets the value of a new or existing pair (lines 78-87). *)
Definition SetPair (db : DB) (user name pval : string) : DB * option Err :=
  Update db (fun tx =>
    match CreateBucketIfNotExists tx with
    | (tx', inr err) => (tx', Some err)
    | (tx', inl buck) =>
        let '(buck', err) :=
          bucket_Put (tx_writable tx') buck (PairKey user name) (PairValue pval) in
        (with_main tx' buck', err)
    end).

(** An empty, open, writable store without pending failure. *)
Definition fresh_db : DB := mkDB true false None None.

(** The repository's [mockDB]: bucket "main" holding two pairs. *)
Definition mock_db : DB :=
  mkDB true false None
    (Some (<["0000:alpha" := Value ("Alpha." +:+ newline)]>
           (<["0000:bravo" := Value ("Bravo." +:+ newline)]> ∅))).

(** ** fmt formatting (external collaborator)

    [fmt.Sprintf] on format strings whose directives are a '%' directly
    followed by the verb (flags, width, precision and argument indexes are
    not modelled), with the operands the HTTP functions pass: Go [int]s and
    [string]s. The verbs [%d], [%s], [%v] and [%%] are formatted as Go does;
    any other verb is formatted as Go formats an operand of the wrong kind
    ([%!c(type=value)]). Missing operands, surplus operands and a trailing
    lone '%' give Go's [%!c(MISSING)], [%!(EXTRA ...)] and [%!(NOVERB)]. *)

Module Fmt.

Inductive Arg :=
  | AInt (z : Z)
  | AStr (s : string).

Definition pct : ascii := "%"%char.

Definition digit (d : N) : ascii := ascii_of_N (48 + d).

Fixpoint fmt_N_go (fuel : nat) (n : N) (acc : string) : string :=
  match fuel with
  | O => acc
  | S f =>
      let acc' := String (digit (N.modulo n 10)) acc in
      if N.ltb n 10 then acc' else fmt_N_go f (N.div n 10) acc'
  end.

(** Decimal digits of [n] (the loop runs once per bit at most). *)
Definition fmt_N (n : N) : string := fmt_N_go (S (N.size_nat n)) n EmptyString.

(** [%d] of an [int]. *)
Definition fmt_Z (z : Z) : string :=
  if Z.ltb z 0 then "-" +:+ fmt_N (Z.to_N (- z)) else fmt_N (Z.to_N z).

Definition arg_type (a : Arg) : string :=
  match a with AInt _ => "int" | AStr _ => "string" end.

(** [%v] of an operand. *)
Definition fmt_v (a : Arg) : string :=
  match a with AInt z => fmt_Z z | AStr s => s end.

(** [pp.badVerb]. *)
Definition badVerb (verb : ascii) (a : Arg) : string :=
  "%!" +:+ String verb ("(" +:+ arg_type a +:+ "=" +:+ fmt_v a +:+ ")").

(** [pp.printArg] for one operand. *)
Definition printArg (verb : ascii) (a : Arg) : string :=
  match a with
  | AInt z =>
      if (Ascii.eqb verb "d" || Ascii.eqb verb "v")%bool then fmt_Z z else badVerb verb a
  | AStr s =>
      if (Ascii.eqb verb "s" || Ascii.eqb verb "v")%bool then s else badVerb verb a
  end.

(** [pp.doPrintf]'s loop: the output and the operands left unused. *)
Fixpoint doPrintf (form : string) (args : list Arg) : string * list Arg :=
  match form with
  | EmptyString => (EmptyString, args)
  | String c rest =>
      if Ascii.eqb c pct then
        match rest with
        | EmptyString => ("%!(NOVERB)", args)
        | String verb rest' =>
            if Ascii.eqb verb pct then
              let '(o, r) := doPrintf rest' args in (String pct o, r)
            else
              match args with
              | [] =>
                  let '(o, r) := doPrintf rest' [] in
                  ("%!" +:+ String verb "(MISSING)" +:+ o, r)
              | a :: args' =>
                  let '(o, r) := doPrintf rest' args' in (printArg verb a +:+ o, r)
              end
        end
      else
        let '(o, r) := doPrintf rest args in (String c o, r)
  end.

Fixpoint extra_list (args : list Arg) : string :=
  match args with
  | [] => EmptyString
  | [a] => arg_type a +:+ "=" +:+ fmt_v a
  | a :: args' => arg_type a +:+ "=" +:+ fmt_v a +:+ ", " +:+ extra_list args'
  end.

(** [fmt.Sprintf]: surplus operands are reported after the output. *)
Definition Sprintf (form : string) (args : list Arg) : string :=
  let '(o, r) := doPrintf form args in
  match r with
  | [] => o
  | _ => o +:+ "%!(EXTRA " +:+ extra_list r +:+ ")"
  end.

End Fmt.

Import Fmt.

(** ** The response writer (external collaborator)

    A recording [http.ResponseWriter] as [httptest.ResponseRecorder] (the
    one the repository's tests use): the header map, the status code
    (200 until written), whether it was written, and the body.
    [WriteHeader] panics (here: [None]) on a code outside [100, 999]. *)

Module Resp.

Record Recorder := mkRec {
  rec_header : list (string * string);
  rec_code : Z;
  rec_wroteHeader : bool;
  rec_body : string
}.

Definition NewRecorder : Recorder := mkRec [] 200 false EmptyString.

(** [w.Header().Set(key, value)]. *)
Definition header_set (w : Recorder) (key value : string) : Recorder :=
  mkRec ((key, value) :: filter (fun kv => kv.1 ≠ key) (rec_header w))
        (rec_code w) (rec_wroteHeader w) (rec_body w).

(** [w.WriteHeader(code)]. *)
Definition WriteHeader (w : Recorder) (code : Z) : option Recorder :=
  if rec_wroteHeader w then Some w
  else if (Z.ltb code 100 || Z.ltb 999 code)%bool then None
  else Some (mkRec (rec_header w) code true (rec_body w)).

(** [w.Write(b)]: an unwritten header is written as 200 first. *)
Definition Write (w : Recorder) (b : string) : option Recorder :=
  match (if rec_wroteHeader w then Some w else WriteHeader w 200) with
  | Some w' => Some (mkRec (rec_header w') (rec_code w') true (rec_body w' +:+ b))
  | None => None
  end.

End Resp.

Import Resp.

(** ** Part four: http response functions *)

(** [WriteHTTP] writes a plaintext response (lines 94-98). *)
Definition WriteHTTP (w : Recorder) (code : Z) (form : string) (elems : list Arg)
  : option Recorder :=
  let w := header_set w "Content-Type" "text/plain; charset=utf-8" in
  match WriteHeader w code with
  | Some w => Write w (Sprintf (form +:+ newline) elems)
  | None => None
  end.

(** [WriteError] writes a plaintext error response (lines 101-104). *)
Definition WriteError (w : Recorder) (code : Z) (form : string) (elems : list Arg)
  : option Recorder :=
  let form := Sprintf "server error %d: %s" [AInt code; AStr form] in
  WriteHTTP w code form elems.

(** [WriteFailure] writes a plaintext failure response (lines 107-110). *)
Definition WriteFailure (w : Recorder) (code : Z) (form : string) (elems : list Arg)
  : option Recorder :=
  let form := Sprintf "client error %d: %s" [AInt code; AStr form] in
  WriteHTTP w code form elems.

(** ** Part five: server endpoint functions *)

(** [GetIndex] returns the index page (lines 117-119); the request is not
    read, so its type is left abstract. *)
Definition GetIndex {Request : Type} (w : Recorder) (r : Request) : option Recorder :=
  WriteHTTP w 200 "Hello." [].

(** ** Specification predicates *)






(** The value stored under [key] in bucket "main", if any. *)
Definition lookup_pair (db : DB) (key : string) : option string :=
  match db_main db with
  | Some b => match b !! key with Some (Value v) => Some v | _ => None end
  | None => None
  end.

(** The entry stored under [key] in bucket "main", value or nested bucket. *)
Definition entry_at (db : DB) (key : string) : option Entry :=
  match db_main db with
  | Some b => b !! key
  | None => None
  end.




(** Verbs whose directives Go formats exactly as [Fmt.printArg] does. *)
Definition plain_verb (v : ascii) : bool :=
  (Ascii.eqb v "s" || Ascii.eqb v "d" || Ascii.eqb v "v" || Ascii.eqb v pct)%bool.

(** Every '%' of [form] starts a complete [%s], [%d], [%v] or [%%]. *)
Fixpoint plain_directives (form : string) : bool :=
  match form with
  | EmptyString => true
  | String c rest =>
      if Ascii.eqb c pct then
        match rest with
        | EmptyString => false
        | String v rest' => (plain_verb v && plain_directives rest')%bool
        end
      else plain_directives rest
  end.

(** The number of operands the directives of [form] consume. *)
Fixpoint directive_count (form : string) : nat :=
  match form with
  | EmptyString => 0
  | String c rest =>
      if Ascii.eqb c pct then
        match rest with
        | EmptyString => 0
        | String v rest' =>
            (if Ascii.eqb v pct then 0 else 1) + directive_count rest'
        end
      else directive_count rest
  end.

(** No '%' byte in [s]. *)
Fixpoint pct_free (s : string) : bool :=
  match s with
  | EmptyString => true
  | String c s' => (negb (Ascii.eqb c pct) && pct_free s')%bool
  end.


(** ** The repository's unit tests, replayed on the model *)

Example PairKey_test : PairKey "USER" "NAME" = "user:name".
Proof. reflexivity. Qed.

Example PairValue_test :
  PairValue (String (ascii_of_nat 9) ("Value." +:+ newline)) = "Value." +:+ newline.
Proof. reflexivity. Qed.

Example GetPair_test :
  snd (GetPair mock_db "0000" "alpha") = ("Alpha." +:+ newline, true, None)
  /\ snd (GetPair mock_db "0000" "nope") = ("", false, None).
Proof. split; vm_compute; reflexivity. Qed.

Example SetPair_test :
  let '(db', err) := SetPair mock_db "0000" "test" ("Test." +:+ newline) in
  err = None /\ (db_main db' ≫= fun b => bucket_Get b "0000:test") = Some ("Test." +:+ newline).
Proof. vm_compute. split; reflexivity. Qed.

Example WriteHTTP_test :
  option_map (fun w => (rec_code w, rec_body w)) (WriteHTTP NewRecorder 200 "%s" [AStr "test"])
  = Some (200%Z, "test" +:+ newline).
Proof. reflexivity. Qed.

Example WriteError_test :
  option_map (fun w => (rec_code w, rec_body w)) (WriteError NewRecorder 500 "%s" [AStr "test"])
  = Some (500%Z, "server error 500: test" +:+ newline).
Proof. reflexivity. Qed.

Example WriteFailure_test :
  option_map (fun w => (rec_code w, rec_body w)) (WriteFailure NewRecorder 400 "%s" [AStr "test"])
  = Some (400%Z, "client error 400: test" +:+ newline).
Proof. reflexivity. Qed.

(** ** Facts about strings *)

Module StrFacts.

#[local] Arguments asciiSpace : simpl never.

Lemma app_assoc_str (a b c : string) : a +:+ (b +:+ c) = (a +:+ b) +:+ c.
Proof. induction a; simpl; congruence. Qed.


Lemma length_app_str (a b : string) :
  String.length (a +:+ b) = String.length a + String.length b.
Proof. induction a; simpl; lia. Qed.



Lemma substring_app_l (a b : string) :
  String.substring 0 (String.length a) (a +:+ b) = a.
Proof. induction a; simpl; [by destruct b|]. by rewrite IHa. Qed.

Lemma substring_app_r (a b : string) :
  String.substring (String.length a) (String.length b) (a +:+ b) = b.
Proof.
  induction a; simpl; [|done].
  induction b; simpl; [done|]. by rewrite IHb.
Qed.

Lemma substring_full (s : string) : String.substring 0 (String.length s) s = s.
Proof. induction s; simpl; [done|]. by rewrite IHs. Qed.

(** Splitting a string at [n]. *)
Lemma substring_split (s : string) (n : nat) :
  n <= String.length s ->
  s = String.substring 0 n s +:+ String.substring n (String.length s - n) s.
Proof.
  revert n. induction s as [|c s IH]; intros [|n] Hn; simpl in *.
  - done.
  - lia.
  - by rewrite substring_full.
  - f_equal. apply IH. lia.
Qed.

Lemma HasPrefix_spec (s p : string) :
  HasPrefix s p = true <-> exists r, s = p +:+ r.
Proof.
  unfold HasPrefix. rewrite andb_true_iff, Nat.leb_le, String.eqb_eq. split.
  - intros [Hle Heq]. exists (String.substring (String.length p) (String.length s - String.length p) s).
    pose proof (substring_split s (String.length p) Hle) as Hs.
    by rewrite Heq in Hs.
  - intros [r ->]. rewrite length_app_str. split; [lia|]. apply substring_app_l.
Qed.

Lemma HasSuffix_spec (s x : string) :
  HasSuffix s x = true <-> exists r, s = r +:+ x.
Proof.
  unfold HasSuffix. rewrite andb_true_iff, Nat.leb_le, String.eqb_eq. split.
  - intros [Hle Heq]. exists (String.substring 0 (String.length s - String.length x) s).
    pose proof (substring_split s (String.length s - String.length x) ltac:(lia)) as Hs.
    replace (String.length s - (String.length s - String.length x))
      with (String.length x) in Hs by lia.
    by rewrite Heq in Hs.
  - intros [r ->]. rewrite length_app_str. split; [lia|].
    replace (String.length r + String.length x - String.length x) with (String.length r) by lia.
    apply substring_app_r.
Qed.


















End StrFacts.

Import StrFacts.

(** ** The claims *)



(** C8. [IsPrivate name] holds exactly when [name] starts with "__" and
    ends with "__" (the two may overlap, as in "____"); "__test__" is
    private, "__test", "test__" and "test" are not. *)
Theorem IsPrivate_spec (name : string) :
  (IsPrivate name = true <->
     (exists r, name = "__" +:+ r) /\ (exists r, name = r +:+ "__")) /\
  IsPrivate "____" = true /\ IsPrivate "__test__" = true /\
  IsPrivate "__test" = false /\ IsPrivate "test__" = false /\
  IsPrivate "test" = false.
Proof.
  split.
  - unfold IsPrivate. by rewrite andb_true_iff, HasPrefix_spec, HasSuffix_spec.
  - repeat split; vm_compute; reflexivity.
Qed.

(** ** Facts about the pair store *)

Module StoreFacts.

Lemma SetPair_cases (db db' : DB) (user name value : string) (err : option Err) :
  SetPair db user name value = (db', err) ->
  (err <> None /\ db' = db) \/
  (err = None /\ db_opened db' = true /\
   db_main db' = Some (<[PairKey user name := Value (PairValue value)]>
                        (default ∅ (db_main db)))).
Proof.
  destruct db as [[] [] fault main];
  unfold SetPair, Update, CreateBucketIfNotExists, bucket_Put; cbn;
  intros H; simplify_eq/=; repeat (case_match; simplify_eq/=);
  first [left; split; [discriminate|reflexivity] | right; repeat split].
Qed.

Lemma DeletePair_cases (db db' : DB) (user name : string) (err : option Err) :
  DeletePair db user name = (db', err) ->
  (err <> None /\ db' = db) \/
  (err = None /\ db_opened db' = true /\
   db_main db' = delete (PairKey user name) <$> db_main db).
Proof.
  destruct db as [[] [] fault main];
  unfold DeletePair, Update, tx_Bucket, bucket_Delete; cbn;
  intros H; simplify_eq/=; repeat (case_match; simplify_eq/=);
  first [left; split; [discriminate|reflexivity] | right; repeat split].
all: cbn; by rewrite delete_id.
Qed.

Lemma GetPair_open (db : DB) (user name : string) :
  db_opened db = true ->
  GetPair db user name =
    (db, (default "" (lookup_pair db (PairKey user name)),
          bool_decide (is_Some (lookup_pair db (PairKey user name))), None)).
Proof.
  destruct db as [op ro fault main]. cbn. intros ->.
  unfold GetPair, View, tx_Bucket, lookup_pair, bucket_Get. cbn.
  destruct main as [b|]; [|done].
  by destruct (b !! PairKey user name) as [[]|].
Qed.

End StoreFacts.

Import StoreFacts.

(** C2. After a successful [SetPair db user name value], [GetPair] with the
    same identifiers returns [PairValue value] (trimmed, not case-folded),
    [found = true] and a nil error. *)
Theorem SetPair_GetPair (db db' : DB) (user name value : string) :
  SetPair db user name value = (db', None) ->
  GetPair db' user name = (db', (PairValue value, true, None)).
Proof.
  intros H. destruct (SetPair_cases _ _ _ _ _ _ H) as [[[] _]|(_ & Hop & Hm)]; [done|].
  rewrite GetPair_open by done. unfold lookup_pair. rewrite Hm.
  by rewrite lookup_insert_eq.
Qed.

(** C3. Absence of a pair is not an error: on an open store [GetPair]
    returns [("", false, nil)] when bucket "main" does not exist and when no
    value is stored under the derived key; after a successful [DeletePair]
    of the same identifiers it returns [("", false, nil)] as well. (On a
    closed store every transaction fails with [ErrDatabaseNotOpen], absent
    pair or not.) *)
Theorem GetPair_absent_not_error (db : DB) (user name : string) :
  db_opened db = true ->
  (db_main db = None -> GetPair db user name = (db, ("", false, None))) /\
  (lookup_pair db (PairKey user name) = None ->
     GetPair db user name = (db, ("", false, None))) /\
  (forall db', DeletePair db user name = (db', None) ->
     GetPair db' user name = (db', ("", false, None))).
Proof.
  intros Hop. split; [|split].
  - intros Hm. rewrite GetPair_open by done. unfold lookup_pair. by rewrite Hm.
  - intros Hl. rewrite GetPair_open by done. by rewrite Hl.
  - intros db' H.
    destruct (DeletePair_cases _ _ _ _ _ H) as [[[] _]|(_ & Hop' & Hm)]; [done|].
    rewrite GetPair_open by done. unfold lookup_pair. rewrite Hm.
    destruct (db_main db); cbn; [|done]. by rewrite lookup_delete_eq.
Qed.

(** C9. [GetPair] never mutates the store: the state after the call, bucket
    "main" and its contents or its absence included, is the state before. *)
Theorem GetPair_never_mutates (db : DB) (user name : string) :
  fst (GetPair db user name) = db.
Proof.
  unfold GetPair, View. destruct (db_opened db); cbn; [|done].
  by destruct (db_main db).
Qed.

(** C10. No validation of identifiers: with empty user and name the key is
    the one byte ":", [SetPair] on an empty store succeeds (given a value
    bbolt accepts in size), and every successful [SetPair db "" "" value]
    is followed by a [GetPair db' "" ""] returning the normalised value,
    [found = true] and a nil error. *)
Theorem empty_identifiers_accepted (value : string) :
  (len (PairValue value) <= MaxValueSize)%N ->
  PairKey "" "" = ":" /\
  (exists db', SetPair fresh_db "" "" value = (db', None) /\
     lookup_pair db' ":" = Some (PairValue value) /\
     GetPair db' "" "" = (db', (PairValue value, true, None))) /\
  (forall db db', SetPair db "" "" value = (db', None) ->
     lookup_pair db' ":" = Some (PairValue value) /\
     GetPair db' "" "" = (db', (PairValue value, true, None))).
Proof.
  intros Hlen.
  assert (Hset : forall db db', SetPair db "" "" value = (db', None) ->
     lookup_pair db' ":" = Some (PairValue value) /\
     GetPair db' "" "" = (db', (PairValue value, true, None))).
  { intros db db' H.
    destruct (SetPair_cases _ _ _ _ _ _ H) as [[[] _]|(_ & Hop & Hm)]; [done|].
    assert (Hl : lookup_pair db' ":" = Some (PairValue value)).
    { unfold lookup_pair. rewrite Hm. change ":" with (PairKey "" "").
      by rewrite lookup_insert_eq. }
    split; [done|]. rewrite GetPair_open by done.
    change (PairKey "" "") with ":". by rewrite Hl. }
  assert (Hfresh : SetPair fresh_db "" "" value =
    (mkDB true false None (Some (<[":" := Value (PairValue value)]> ∅)), None)).
  { unfold SetPair, Update, CreateBucketIfNotExists, bucket_Put; cbn.
    by rewrite (proj2 (N.ltb_ge _ _) Hlen). }
  split; [done|split; [|exact Hset]].
  eexists. split; [exact Hfresh|exact (Hset _ _ Hfresh)].
Qed.


(** ** Witnesses *)

(** C2 on the spec's scenario: [SetPair(db, "0000", "alpha", "  Alpha.  ")]
    on the repository's mock store stores "Alpha.\n" under "0000:alpha". *)
Lemma SetPair_GetPair_witness :
  let db1 := fst (SetPair mock_db "0000" "alpha" "  Alpha.  ") in
  SetPair mock_db "0000" "alpha" "  Alpha.  " = (db1, None) /\
  lookup_pair db1 "0000:alpha" = Some ("Alpha." +:+ newline) /\
  GetPair db1 "0000" "alpha" = (db1, (PairValue "  Alpha.  ", true, None)).
Proof.
  intros db1.
  assert (H : SetPair mock_db "0000" "alpha" "  Alpha.  " = (db1, None))
    by (vm_compute; reflexivity).
  split; [exact H|split; [vm_compute; reflexivity|]].
  exact (SetPair_GetPair mock_db db1 "0000" "alpha" "  Alpha.  " H).
Defined.

Lemma GetPair_absent_not_error_witness :
  db_opened mock_db = true /\
  GetPair mock_db "0000" "nope" = (mock_db, ("", false, None)).
Proof.
  assert (Hop : db_opened mock_db = true) by reflexivity.
  split; [exact Hop|].
  apply (GetPair_absent_not_error mock_db "0000" "nope" Hop).
  vm_compute. reflexivity.
Defined.

Lemma empty_identifiers_accepted_witness :
  (len (PairValue " v ") <= MaxValueSize)%N /\ PairKey "" "" = ":".
Proof.
  assert (H : (len (PairValue " v ") <= MaxValueSize)%N) by (apply N.leb_le; reflexivity).
  split; [exact H|exact (proj1 (empty_identifiers_accepted " v " H))].
Defined.


(** ** Facts about formatting and responses *)

Module FmtFacts.





Lemma doPrintf_pct_free (p f : string) (args : list Arg) :
  pct_free p = true ->
  doPrintf (p +:+ f) args = let '(o, r) := doPrintf f args in (p +:+ o, r).
Proof.
  induction p as [|c p IH]; intros Hp; cbn [String.append].
  - by destruct (doPrintf f args).
  - cbn [pct_free] in Hp. apply andb_true_iff in Hp as [Hc Hp].
    apply negb_true_iff in Hc. cbn [doPrintf]. rewrite Hc, IH by done.
    by destruct (doPrintf f args).
Qed.

Lemma doPrintf_snoc_newline (f : string) (args : list Arg) :
  plain_directives f = true ->
  doPrintf (f +:+ newline) args = let '(o, r) := doPrintf f args in (o +:+ newline, r).
Proof.
  remember (String.length f) as k eqn:Hk. revert f args Hk.
  induction k as [k IH] using lt_wf_ind. intros f args Hk Hp.
  destruct f as [|c rest]; [reflexivity|].
  cbn [plain_directives] in Hp. cbn [String.append doPrintf].
  destruct (Ascii.eqb c pct) eqn:Ec.
  - destruct rest as [|v rest']; [discriminate|].
    apply andb_true_iff in Hp as [_ Hp]. cbn [String.append].
    rewrite (IH (String.length rest')) by (cbn in Hk; first [lia|done]).
    destruct (Ascii.eqb v pct).
    + by destruct (doPrintf rest' args).
    + destruct args as [|a args'].
      * rewrite (IH (String.length rest')) by (cbn in Hk; first [lia|done]).
        destruct (doPrintf rest' []) as [o r]. cbn [String.append]. by rewrite ?app_assoc_str.
      * rewrite (IH (String.length rest')) by (cbn in Hk; first [lia|done]).
        destruct (doPrintf rest' args') as [o r]. by rewrite !app_assoc_str.
  - rewrite (IH (String.length rest)) by (cbn in Hk; first [lia|done]).
    by destruct (doPrintf rest args).
Qed.

Lemma doPrintf_unused (f : string) (args : list Arg) :
  plain_directives f = true ->
  snd (doPrintf f args) = drop (directive_count f) args.
Proof.
  remember (String.length f) as k eqn:Hk. revert f args Hk.
  induction k as [k IH] using lt_wf_ind. intros f args Hk Hp.
  destruct f as [|c rest]; [reflexivity|].
  cbn [plain_directives] in Hp. cbn [doPrintf directive_count].
  destruct (Ascii.eqb c pct) eqn:Ec.
  - destruct rest as [|v rest']; [discriminate|].
    apply andb_true_iff in Hp as [_ Hp].
    pose proof (IH (String.length rest') ltac:(cbn in Hk; lia) rest') as IH'.
    destruct (Ascii.eqb v pct).
    + specialize (IH' args eq_refl Hp). destruct (doPrintf rest' args). exact IH'.
    + destruct args as [|a args'].
      * specialize (IH' [] eq_refl Hp). destruct (doPrintf rest' []).
        cbn in *. by rewrite IH', drop_nil.
      * specialize (IH' args' eq_refl Hp). destruct (doPrintf rest' args').
        exact IH'.
  - pose proof (IH (String.length rest) ltac:(cbn in Hk; lia) rest args eq_refl Hp).
    by destruct (doPrintf rest args).
Qed.

(** A '%'-free prefix and a trailing newline around a plain format with no
    surplus operand pass through [Sprintf] unchanged. *)
Lemma Sprintf_around (p f : string) (args : list Arg) :
  pct_free p = true -> plain_directives f = true ->
  length args <= directive_count f ->
  Sprintf ((p +:+ f) +:+ newline) args = p +:+ (Sprintf f args +:+ newline).
Proof.
  intros Hp Hf Hn. unfold Sprintf.
  rewrite <- app_assoc_str, doPrintf_pct_free, doPrintf_snoc_newline by done.
  pose proof (doPrintf_unused f args Hf) as Hr.
  destruct (doPrintf f args) as [o r]. cbn in Hr.
  rewrite drop_ge in Hr by done. by subst r.
Qed.



End FmtFacts.

Import FmtFacts.







(** ** Further facts about the pair store, values and responses *)

Module ExtraFacts.

Lemma ToLower_length (s : string) : String.length (ToLower s) = String.length s.
Proof. induction s as [|c s IH]; cbn; [done|by rewrite IH]. Qed.

Lemma PairKey_length (user name : string) :
  String.length (PairKey user name) = String.length user + String.length name + 1.
Proof.
  unfold PairKey. rewrite !length_app_str, !ToLower_length. cbn. lia.
Qed.

Lemma PairKey_len_nonzero (user name : string) : N.eqb (len (PairKey user name)) 0 = false.
Proof. apply N.eqb_neq. unfold len. rewrite PairKey_length. lia. Qed.

(** [SetPair] evaluated: the checks of [Update] and [Bucket.Put] in order
    (the empty-key check never fires, the key holding a ':'), then the
    commit. *)
Lemma SetPair_eval (db : DB) (user name value : string) :
  SetPair db user name value =
  if db_readOnly db then (db, Some ErrDatabaseReadOnly)
  else if negb (db_opened db) then (db, Some ErrDatabaseNotOpen)
  else if N.ltb MaxKeySize (len (PairKey user name)) then (db, Some ErrKeyTooLarge)
  else if N.ltb MaxValueSize (len (PairValue value)) then (db, Some ErrValueTooLarge)
  else match entry_at db (PairKey user name), db_fault db with
       | Some Nested, _ => (db, Some ErrIncompatibleValue)
       | _, Some e => (db, Some e)
       | _, None =>
           (mkDB true false None
              (Some (<[PairKey user name := Value (PairValue value)]>
                     (default ∅ (db_main db)))), None)
       end.
Proof.
  pose proof (PairKey_len_nonzero user name) as Hk.
  destruct db as [[] [] fault main];
  unfold SetPair, Update, CreateBucketIfNotExists, bucket_Put, entry_at;
  cbn -[len PairKey PairValue]; [done| |done|done].
  rewrite Hk.
  destruct (N.ltb MaxKeySize _); [by destruct main|].
  destruct (N.ltb MaxValueSize _); [by destruct main|].
  destruct main as [b|]; cbn -[len PairKey PairValue].
  - destruct (b !! PairKey user name) as [[]|]; cbn; by destruct fault.
  - rewrite lookup_empty. cbn. by destruct fault.
Qed.

(** [DeletePair] evaluated. *)
Lemma DeletePair_eval (db : DB) (user name : string) :
  DeletePair db user name =
  if db_readOnly db then (db, Some ErrDatabaseReadOnly)
  else if negb (db_opened db) then (db, Some ErrDatabaseNotOpen)
  else match entry_at db (PairKey user name), db_fault db with
       | Some Nested, _ => (db, Some ErrIncompatibleValue)
       | _, Some e => (db, Some e)
       | _, None => (mkDB true false None (delete (PairKey user name) <$> db_main db), None)
       end.
Proof.
  destruct db as [[] [] fault main];
  unfold DeletePair, Update, tx_Bucket, bucket_Delete, entry_at;
  cbn -[PairKey]; [done| |done|done].
  destruct main as [b|]; cbn -[PairKey].
  - destruct (b !! PairKey user name) as [[]|] eqn:E; cbn -[PairKey];
      destruct fault; try done.
    by rewrite delete_id.
  - by destruct fault.
Qed.





End ExtraFacts.

Import ExtraFacts.

(** ** Further properties of the pair functions *)

(** X1. [SetPair] succeeds exactly when the store is open and writable, no
    commit failure is pending, the derived key is at most [MaxKeySize] bytes,
    the normalised value at most [MaxValueSize] bytes, and the key does not
    name a nested bucket. No identifier is refused for being empty. *)
Theorem SetPair_success_iff (db : DB) (user name value : string) :
  snd (SetPair db user name value) = None <->
  db_readOnly db = false /\ db_opened db = true /\ db_fault db = None /\
  (len (PairKey user name) <= MaxKeySize)%N /\
  (len (PairValue value) <= MaxValueSize)%N /\
  entry_at db (PairKey user name) <> Some Nested.
Proof.
  rewrite SetPair_eval.
  destruct (db_readOnly db); [split; [discriminate|intuition discriminate]|].
  destruct (db_opened db); cbn [negb]; [|split; [discriminate|intuition discriminate]].
  destruct (N.ltb MaxKeySize _) eqn:Ek.
  { apply N.ltb_lt in Ek. split; [discriminate|intros (_ & _ & _ & ? & _); lia]. }
  apply N.ltb_ge in Ek.
  destruct (N.ltb MaxValueSize _) eqn:Ev.
  { apply N.ltb_lt in Ev. split; [discriminate|intros (_ & _ & _ & _ & ? & _); lia]. }
  apply N.ltb_ge in Ev.
  destruct (entry_at db (PairKey user name)) as [[]|], (db_fault db); cbn;
    split; intuition (try discriminate).
Qed.


(** X3. A failed [SetPair] changes nothing: whatever error it returns, the
    store after the call (bucket "main" and its contents) is the store
    before, the transaction being rolled back. *)
Theorem SetPair_error_rollback (db db' : DB) (user name value : string) (e : Err) :
  SetPair db user name value = (db', Some e) -> db' = db.
Proof.
  intros H. by destruct (SetPair_cases _ _ _ _ _ _ H) as [[_ ->]|[? _]].
Qed.

(** X4. A failed [DeletePair] changes nothing either. *)
Theorem DeletePair_error_rollback (db db' : DB) (user name : string) (e : Err) :
  DeletePair db user name = (db', Some e) -> db' = db.
Proof.
  intros H. by destruct (DeletePair_cases _ _ _ _ _ H) as [[_ ->]|[? _]].
Qed.

(** X5. [SetPair] is idempotent: repeating a successful call with the same
    arguments succeeds again and leaves the store as the first call left
    it. *)
Theorem SetPair_idempotent (db db' : DB) (user name value : string) :
  SetPair db user name value = (db', None) ->
  SetPair db' user name value = (db', None).
Proof.
  intros H. pose proof H as H0. rewrite SetPair_eval in H0.
  destruct (db_readOnly db), (db_opened db); cbn [negb] in H0; try discriminate.
  destruct (N.ltb MaxKeySize _) eqn:Ek; [discriminate|].
  destruct (N.ltb MaxValueSize _) eqn:Ev; [discriminate|].
  destruct (entry_at db (PairKey user name)) as [[]|], (db_fault db);
    try discriminate; injection H0 as <-;
    rewrite SetPair_eval; cbn [db_readOnly db_opened negb];
    rewrite Ek, Ev; unfold entry_at; cbn [db_main db_fault default];
    rewrite lookup_insert_eq; cbn; by rewrite insert_insert_eq.
Qed.

(** X6. [SetPair] touches no other key: the value under any key other than
    [PairKey user name] is the same after the call as before, whether the
    call succeeds or fails. *)
Theorem SetPair_frame (db : DB) (user name value key : string) :
  key <> PairKey user name ->
  lookup_pair (fst (SetPair db user name value)) key = lookup_pair db key.
Proof.
  intros Hne. destruct (SetPair db user name value) as [db' err] eqn:H. cbn [fst].
  destruct (SetPair_cases _ _ _ _ _ _ H) as [[_ ->]|(_ & _ & Hm)]; [done|].
  unfold lookup_pair. rewrite Hm, lookup_insert_ne by congruence.
  destruct (db_main db); cbn; [done|by rewrite lookup_empty].
Qed.

(** X7. [DeletePair] touches no other key either. *)
Theorem DeletePair_frame (db : DB) (user name key : string) :
  key <> PairKey user name ->
  lookup_pair (fst (DeletePair db user name)) key = lookup_pair db key.
Proof.
  intros Hne. destruct (DeletePair db user name) as [db' err] eqn:H. cbn [fst].
  destruct (DeletePair_cases _ _ _ _ _ H) as [[_ ->]|(_ & _ & Hm)]; [done|].
  unfold lookup_pair. rewrite Hm.
  destruct (db_main db); cbn; [|done]. by rewrite lookup_delete_ne by congruence.
Qed.

(** X8. [DeletePair] succeeds exactly when the store is open and writable,
    no commit failure is pending and the key does not name a nested bucket:
    a missing bucket "main" or a missing pair is not an error. *)
Theorem DeletePair_success_iff (db : DB) (user name : string) :
  snd (DeletePair db user name) = None <->
  db_readOnly db = false /\ db_opened db = true /\ db_fault db = None /\
  entry_at db (PairKey user name) <> Some Nested.
Proof.
  rewrite DeletePair_eval.
  destruct (db_readOnly db); [split; [discriminate|intuition discriminate]|].
  destruct (db_opened db); cbn [negb]; [|split; [discriminate|intuition discriminate]].
  destruct (entry_at db (PairKey user name)) as [[]|], (db_fault db); cbn;
    split; intuition (try discriminate).
Qed.

(** X9. Deleting a pair that is absent (or whose bucket "main" does not
    exist) from an open, writable store without pending failure succeeds and
    leaves the store exactly as it was. *)
Theorem DeletePair_absent_noop (db : DB) (user name : string) :
  db_readOnly db = false -> db_opened db = true -> db_fault db = None ->
  entry_at db (PairKey user name) = None ->
  DeletePair db user name = (db, None).
Proof.
  intros Hro Hop Hf He. rewrite DeletePair_eval, Hro, Hop, He, Hf. cbn [negb].
  destruct db as [op ro fault [b|]]; cbn in *; subst; [|done].
  by rewrite delete_id.
Qed.

(** X10. [DeletePair] is idempotent: after a successful call, the same call
    succeeds again and changes nothing. *)
Theorem DeletePair_idempotent (db db' : DB) (user name : string) :
  DeletePair db user name = (db', None) ->
  DeletePair db' user name = (db', None).
Proof.
  intros H. pose proof H as H0. rewrite DeletePair_eval in H0.
  destruct (db_readOnly db), (db_opened db); cbn [negb] in H0; try discriminate.
  destruct (entry_at db (PairKey user name)) as [[]|], (db_fault db);
    try discriminate; injection H0 as <-;
    rewrite DeletePair_eval; cbn [db_readOnly db_opened negb db_fault db_main];
    unfold entry_at; cbn [db_main];
    destruct (db_main db) as [b|]; cbn; try done;
    rewrite lookup_delete_eq; cbn; by rewrite delete_delete_eq.
Qed.

(** X11. Bucket "main" is created only by a successful [SetPair] and never
    removed: after [DeletePair] it exists exactly when it existed before;
    after [SetPair] it exists exactly when it existed before or the call
    succeeded. *)
Theorem main_bucket_lifecycle (db : DB) (user name value : string) :
  (is_Some (db_main (fst (DeletePair db user name))) <-> is_Some (db_main db)) /\
  (is_Some (db_main (fst (SetPair db user name value))) <->
     is_Some (db_main db) \/ snd (SetPair db user name value) = None).
Proof.
  split.
  - destruct (DeletePair db user name) as [db' err] eqn:H. cbn [fst].
    destruct (DeletePair_cases _ _ _ _ _ H) as [[_ ->]|(_ & _ & Hm)]; [done|].
    rewrite Hm. apply fmap_is_Some.
  - destruct (SetPair db user name value) as [db' err] eqn:H. cbn [fst snd].
    destruct (SetPair_cases _ _ _ _ _ _ H) as [[He ->]|(-> & _ & Hm)].
    + intuition.
    + rewrite Hm. split; [by right|by eexists].
Qed.

(** X12. [GetPair] reports an error exactly when the store is closed: a
    read-only store, a pending commit failure, a missing bucket or a missing
    pair give a nil error. *)
Theorem GetPair_error_iff_closed (db : DB) (user name : string) :
  (GetPair db user name).2.2 = None <-> db_opened db = true.
Proof.
  destruct (db_opened db) eqn:Hop.
  - rewrite GetPair_open by done. by split.
  - unfold GetPair, View. rewrite Hop. cbn. split; discriminate.
Qed.

(** X13. On a closed store [GetPair] returns the zero value, [false] and
    [ErrDatabaseNotOpen], whatever the store holds. *)
Theorem GetPair_closed (db : DB) (user name : string) :
  db_opened db = false ->
  GetPair db user name = (db, ("", false, Some ErrDatabaseNotOpen)).
Proof. intros Hop. unfold GetPair, View. by rewrite Hop. Qed.

(** X14. Identifiers are case-folded on both sides: after a successful
    [SetPair db user name value], [GetPair] with any identifiers of the same
    lowercase form finds [PairValue value] with a nil error. *)
Theorem SetPair_GetPair_case_folded (db db' : DB) (user name user' name' value : string) :
  SetPair db user name value = (db', None) ->
  ToLower user' = ToLower user -> ToLower name' = ToLower name ->
  GetPair db' user' name' = (db', (PairValue value, true, None)).
Proof.
  intros H Hu Hn.
  assert (Hk : PairKey user' name' = PairKey user name) by (unfold PairKey; by rewrite Hu, Hn).
  destruct (SetPair_cases _ _ _ _ _ _ H) as [[[] _]|(_ & Hop & Hm)]; [done|].
  rewrite GetPair_open by done. unfold lookup_pair. rewrite Hm, Hk.
  by rewrite lookup_insert_eq.
Qed.



(** ** Further properties of the response functions *)

(** X17. For a status code in [100, 999] and a format whose directives are
    complete [%s], [%d], [%v] or [%%] and consume every operand, [WriteHTTP]
    on a fresh writer sets the plain-text content type, records the status
    code and writes the formatted text followed by one newline. *)
Theorem WriteHTTP_fresh (code : Z) (form : string) (elems : list Arg) :
  (100 <= code <= 999)%Z ->
  plain_directives form = true ->
  length elems <= directive_count form ->
  WriteHTTP NewRecorder code form elems =
    Some (mkRec [("Content-Type", "text/plain; charset=utf-8")] code true
            (Sprintf form elems +:+ newline)).
Proof.
  intros Hc Hf Hn. unfold WriteHTTP.
  change (form +:+ newline) with (("" +:+ form) +:+ newline).
  rewrite Sprintf_around by done.
  assert (Hh : header_set NewRecorder "Content-Type" "text/plain; charset=utf-8" =
    mkRec [("Content-Type", "text/plain; charset=utf-8")] 200 false EmptyString)
    by reflexivity.
  rewrite Hh. unfold WriteHeader. cbn [rec_wroteHeader rec_header rec_body].
  rewrite (proj2 (Z.ltb_ge code 100)), (proj2 (Z.ltb_ge 999 code)) by lia.
  unfold Write. by cbn [orb rec_wroteHeader rec_header rec_code rec_body String.append].
Qed.

(** X18. A status code outside [100, 999] on a writer whose header is not
    yet written makes [WriteHTTP], and so [WriteError] and [WriteFailure],
    panic before any body byte is written. *)
Theorem WriteHTTP_bad_code_panics (w : Recorder) (code : Z) (form : string)
  (elems : list Arg) :
  rec_wroteHeader w = false -> (code < 100 \/ 999 < code)%Z ->
  WriteHTTP w code form elems = None /\
  WriteError w code form elems = None /\
  WriteFailure w code form elems = None.
Proof.
  intros Hw Hc.
  assert (H : forall f, WriteHTTP w code f elems = None).
  { intros f. unfold WriteHTTP, WriteHeader, header_set. cbn [rec_wroteHeader].
    rewrite Hw.
    replace (Z.ltb code 100 || Z.ltb 999 code)%bool with true; [done|].
    symmetry. apply orb_true_iff. destruct Hc; [left|right]; by apply Z.ltb_lt. }
  split; [apply H|split; apply H].
Qed.

(** X19. On a writer whose header is already written, [WriteHTTP] keeps the
    earlier status code, whatever code it is given, and appends the
    formatted text and its newline to the body. *)
Theorem WriteHTTP_after_header (w : Recorder) (code : Z) (form : string)
  (elems : list Arg) :
  rec_wroteHeader w = true ->
  exists w', WriteHTTP w code form elems = Some w' /\
    rec_code w' = rec_code w /\
    rec_body w' = rec_body w +:+ Sprintf (form +:+ newline) elems.
Proof.
  intros Hw. unfold WriteHTTP, WriteHeader, header_set, Write.
  cbn [rec_wroteHeader rec_code rec_body rec_header]. rewrite Hw.
  eexists. split; [reflexivity|]. by split.
Qed.

(** X20. [GetIndex] answers every request on a writer whose header is not
    yet written with status 200, the plain-text content type, and the body
    "Hello." followed by a newline. *)
Theorem GetIndex_response {Request : Type} (w : Recorder) (r : Request) :
  rec_wroteHeader w = false ->
  exists w', GetIndex w r = Some w' /\ rec_code w' = 200%Z /\
    rec_body w' = rec_body w +:+ "Hello." +:+ newline /\
    head (rec_header w') = Some ("Content-Type", "text/plain; charset=utf-8").
Proof.
  intros Hw. unfold GetIndex, WriteHTTP, WriteHeader, header_set, Write.
  cbn [rec_wroteHeader rec_code rec_body rec_header]. rewrite Hw. cbn.
  eexists. split; [reflexivity|]. by repeat split.
Qed.

(** ** Witnesses of the further properties *)


Lemma SetPair_error_rollback_witness :
  exists db', SetPair (mkDB true false (Some ErrIO) None) "u" "n" "v" = (db', Some ErrIO) /\
    db' = mkDB true false (Some ErrIO) None.
Proof.
  eexists. split; [reflexivity|].
  apply (SetPair_error_rollback _ _ "u" "n" "v" ErrIO). reflexivity.
Defined.

Lemma DeletePair_error_rollback_witness :
  exists db', DeletePair (mkDB true true None (db_main mock_db)) "0000" "alpha" =
    (db', Some ErrDatabaseReadOnly) /\ db' = mkDB true true None (db_main mock_db).
Proof.
  eexists. split; [reflexivity|].
  apply (DeletePair_error_rollback _ _ "0000" "alpha" ErrDatabaseReadOnly). reflexivity.
Defined.

Lemma SetPair_idempotent_witness :
  exists db', SetPair mock_db "0000" "Alpha" " x " = (db', None) /\
    SetPair db' "0000" "Alpha" " x " = (db', None).
Proof.
  eexists. split; [reflexivity|].
  apply (SetPair_idempotent mock_db). reflexivity.
Defined.

Lemma SetPair_frame_witness :
  lookup_pair (fst (SetPair mock_db "0000" "charlie" "x")) "0000:alpha" =
    lookup_pair mock_db "0000:alpha" /\
  lookup_pair mock_db "0000:alpha" = Some ("Alpha." +:+ newline).
Proof.
  split; [|reflexivity].
  apply SetPair_frame. intros Hk. vm_compute in Hk. discriminate Hk.
Defined.

Lemma DeletePair_frame_witness :
  lookup_pair (fst (DeletePair mock_db "0000" "alpha")) "0000:bravo" =
    lookup_pair mock_db "0000:bravo" /\
  lookup_pair mock_db "0000:bravo" = Some ("Bravo." +:+ newline).
Proof.
  split; [|reflexivity].
  apply DeletePair_frame. intros Hk. vm_compute in Hk. discriminate Hk.
Defined.

Lemma DeletePair_absent_noop_witness :
  DeletePair mock_db "0000" "charlie" = (mock_db, None) /\
  DeletePair fresh_db "u" "n" = (fresh_db, None).
Proof.
  split; apply DeletePair_absent_noop; reflexivity.
Defined.

Lemma DeletePair_idempotent_witness :
  exists db', DeletePair mock_db "0000" "ALPHA" = (db', None) /\
    DeletePair db' "0000" "ALPHA" = (db', None).
Proof.
  eexists. split; [reflexivity|].
  apply (DeletePair_idempotent mock_db). reflexivity.
Defined.

Lemma GetPair_closed_witness :
  GetPair (mkDB false false None (db_main mock_db)) "0000" "alpha" =
    (mkDB false false None (db_main mock_db), ("", false, Some ErrDatabaseNotOpen)).
Proof. apply GetPair_closed. reflexivity. Defined.

Lemma SetPair_GetPair_case_folded_witness :
  exists db', SetPair fresh_db "Alice" "Notes" " x " = (db', None) /\
    GetPair db' "ALICE" "notes" = (db', ("x" +:+ newline, true, None)).
Proof.
  eexists. split; [reflexivity|].
  apply (SetPair_GetPair_case_folded fresh_db _ "Alice" "Notes" "ALICE" "notes" " x ");
    reflexivity.
Defined.



Lemma WriteHTTP_fresh_witness :
  WriteHTTP NewRecorder 201 "%d items" [AInt 3] =
    Some (mkRec [("Content-Type", "text/plain; charset=utf-8")] 201 true
            ("3 items" +:+ newline)).
Proof.
  apply (WriteHTTP_fresh 201 "%d items" [AInt 3]); [lia|reflexivity|cbn; lia].
Defined.

Lemma WriteHTTP_bad_code_panics_witness :
  WriteHTTP NewRecorder 42 "oops" [] = None /\
  WriteError NewRecorder 42 "oops" [] = None /\
  WriteFailure NewRecorder 1000 "oops" [] = None.
Proof.
  split; [|split].
  - apply (WriteHTTP_bad_code_panics NewRecorder 42 "oops" []); [reflexivity|lia].
  - apply (WriteHTTP_bad_code_panics NewRecorder 42 "oops" []); [reflexivity|lia].
  - apply (WriteHTTP_bad_code_panics NewRecorder 1000 "oops" []); [reflexivity|lia].
Defined.

Lemma WriteHTTP_after_header_witness :
  exists w', WriteHTTP (mkRec [] 404 true "x") 200 "y" [] = Some w' /\
    rec_code w' = 404%Z /\ rec_body w' = "x" +:+ "y" +:+ newline.
Proof.
  destruct (WriteHTTP_after_header (mkRec [] 404 true "x") 200 "y" [] eq_refl)
    as (w' & Hw & Hc & Hb).
  exists w'. split; [exact Hw|split; [exact Hc|]]. rewrite Hb. reflexivity.
Defined.

Lemma GetIndex_response_witness :
  exists w', GetIndex NewRecorder tt = Some w' /\ rec_code w' = 200%Z /\
    rec_body w' = "Hello." +:+ newline.
Proof.
  destruct (GetIndex_response NewRecorder tt eq_refl) as (w' & Hw & Hc & Hb & _).
  exists w'. split; [exact Hw|split; [exact Hc|]]. rewrite Hb. reflexivity.
Defined.
